(** * SimpleECDSA: the signature core ([src/signature.c])

    A shallow embedding of [signature.c] and the properties of signing and
    verification stated in the specification.

    GMP integers ([mpz_t]) are unbounded, so they are modelled by [Z].
    The C functions write their result through an out-parameter; here they
    return it.  The curve arithmetic ([point.c]), the modular inverse
    ([numbertheory.c]) and the entropy source ([random.c]) are collaborators
    of the core whose code is not part of [signature.c]; the core is
    embedded over an interface for them. *)

From Stdlib Require Import ZArith List Bool Lia Zcong Zdivisibility.
From Stdlib Require Import Ascii String.
From Stdlib Require DecimalString DecimalZ DecimalPos.
Import ListNotations.
Local Open Scope Z_scope.

(** * The GMP primitives used by the core *)

(** [mpz_cmp a b]: positive, zero or negative as [a] is greater than, equal
    to or less than [b]. *)
Definition mpz_cmp (u v : Z) : Z :=
  match u ?= v with
  | Lt => -1
  | Eq => 0
  | Gt => 1
  end.

(** [mpz_sgn]: +1, 0 or -1. *)
Definition mpz_sgn (u : Z) : Z := Z.sgn u.

(** [mpz_sizeinbase (u, 2)]: the number of bits of the absolute value; the
    sign is ignored and the result is 1 for zero. *)
Definition mpz_sizeinbase2 (u : Z) : Z :=
  if u =? 0 then 1 else Z.log2 (Z.abs u) + 1.

(** [mpz_mod]: the sign of the divisor is ignored and the result is never
    negative.  For a zero divisor GMP raises a division by zero and gives no
    result: [None]. *)
Definition mpz_mod (u d : Z) : option Z :=
  if d =? 0 then None else Some (u mod Z.abs d).

(** [mpz_urandomm (rop, state, bound)]: a value in [0, |bound| - 1]; GMP works
    on the magnitude of the bound and raises a division by zero when it is
    zero: [None].  The state is created and seeded anew before every draw;
    which value of the range comes out is decided by the entropy the seeding
    delivered, the input [entropy] of the model.  What the seeded generator
    can and cannot deliver is not modelled. *)
Definition mpz_urandomm (entropy bound : Z) : option Z :=
  if bound =? 0 then None else Some (entropy mod Z.abs bound).

(** * Data *)

(** Modelled from the spec: [point.h] is not part of the core.  A point
    exposes affine coordinates and an is-infinity flag; the core reads
    [Q->x] and [x->infinity]. *)
Record point : Set := mkPoint { x : Z; y : Z; infinity : bool }.

(** Modelled from the spec: [domain_parameters.h] is not part of the core.
    The core reads [curve->G] and [curve->n]; the field prime and the curve
    coefficients are there for the point arithmetic. *)
Record domain_parameters : Set := mkDomain {
  p : Z;
  a : Z;
  b : Z;
  G : point;
  n : Z
}.

(** [struct signature_s]: the two integers [r] and [s]. *)
Record signature : Set := mkSignature { r : Z; s : Z }.

(** Modelled from the spec: the collaborators of the core.
    [point_multiplication] computes scalar times point under the group law of
    the domain, [point_addition] the group-law sum, and
    [number_theory_inverse] the modular inverse, which is undefined (an
    error) when value and modulus are not coprime: [None]. *)
Class Collaborators : Type := {
  point_multiplication : Z -> point -> domain_parameters -> point;
  point_addition : point -> point -> domain_parameters -> point;
  number_theory_inverse : Z -> Z -> option Z
}.

(** * Signature value operations *)

Definition signature_init : signature := mkSignature 0 0.

(** [unsigned long int] arguments: never negative. *)
Definition signature_set_ui (sig : signature) (r0 s0 : N) : signature :=
  mkSignature (Z.of_N r0) (Z.of_N s0).

Definition signature_copy (R sig : signature) : signature :=
  mkSignature sig.(r) sig.(s).

Definition signature_cmp (sig1 sig2 : signature) : bool :=
  (mpz_cmp sig1.(r) sig2.(r) =? 0) && (mpz_cmp sig1.(s) sig2.(s) =? 0).

(** * Key generation, signing, verification *)

(** The local point [Q] of [signature_sign]: [point_init] creates it once,
    before the label [signature_sign_start]; [point_clear] releases it in
    every pass below the label, and nothing creates it again. *)
Inductive point_state : Set :=
| Initialised
| Cleared.

(** What one pass through the body of [signature_sign] below the label
    [signature_sign_start] ends in. *)
Inductive attempt : Set :=
| Retry                      (* r = 0: goto signature_sign_start *)
| Undefined                  (* the inverse of k is undefined *)
| Done (sig : signature)
| DivisionByZero             (* GMP divides by a zero bound or modulus *)
| UseAfterClear.             (* point_multiplication writes to the released Q:
                                from here the C program has no defined
                                behaviour *)

(** What a call of [signature_sign] ends in. *)
Inductive sign_result : Set :=
| SignAbort                  (* the assertion failed *)
| SignStarved                (* the model was given fewer draws than the
                                call makes *)
| SignUndefined              (* the inverse of k is undefined *)
| Signed (sig : signature)
| SignDivisionByZero
| SignUseAfterClear.

(** What a call of [signature_verify] ends in. *)
Inductive verify_result : Set :=
| VerifyUndefined            (* the inverse of s is undefined *)
| Verified (result : bool)
| VerifyDivisionByZero.

Section Core.
Context {C : Collaborators}.

Definition signature_generate_key (private_key : Z) (curve : domain_parameters)
  : point :=
  point_multiplication private_key curve.(G) curve.

(** "Set k": [t1 = n - 2; k = urandomm (t1)]. *)
Definition draw_nonce (entropy : Z) (curve : domain_parameters) : option Z :=
  let t1 := curve.(n) - 2 in
  mpz_urandomm entropy t1.

(** "Calculate x", "Calculate r". *)
Definition nonce_r (k : Z) (curve : domain_parameters) : option Z :=
  let Q := point_multiplication k curve.(G) curve in
  let x0 := Q.(x) in
  mpz_mod x0 curve.(n).

(** "Calculate s". *)
Definition nonce_s (t1 r0 message private_key : Z) (curve : domain_parameters)
  : option Z :=
  let t2 := private_key * r0 in
  let t3 := message + t2 in
  match mpz_mod t3 curve.(n) with
  | None => None
  | Some t2 =>
      let t3 := t2 * t1 in
      mpz_mod t3 curve.(n)
  end.

(** One pass below the label, entered with [Q] in the state [Q_state]: the
    draw, then [point_multiplication (Q, k, G)], which needs [Q], then
    [point_clear (Q)], then [r], the test of [r], the inverse and [s]. *)
Definition sign_attempt (Q_state : point_state)
    (entropy message private_key : Z) (curve : domain_parameters) : attempt :=
  match draw_nonce entropy curve with
  | None => DivisionByZero
  | Some k =>
      match Q_state with
      | Cleared => UseAfterClear
      | Initialised =>
          match nonce_r k curve with
          | None => DivisionByZero
          | Some r0 =>
              if mpz_sgn r0 =? 0 then Retry
              else
                match number_theory_inverse k curve.(n) with
                | None => Undefined
                | Some t1 =>
                    match nonce_s t1 r0 message private_key curve with
                    | None => DivisionByZero
                    | Some s0 => Done (mkSignature r0 s0)
                    end
                end
          end
      end
  end.

(** The passes of one call.  The entropy delivered to the successive passes
    is the list [entropy]; a pass that ends in the [goto] leaves [Q]
    released for the next. *)
Fixpoint sign_loop (Q_state : point_state) (entropy : list Z)
    (message private_key : Z) (curve : domain_parameters) : sign_result :=
  match entropy with
  | [] => SignStarved
  | e :: rest =>
      match sign_attempt Q_state e message private_key curve with
      | Retry => sign_loop Cleared rest message private_key curve
      | Undefined => SignUndefined
      | Done sig => Signed sig
      | DivisionByZero => SignDivisionByZero
      | UseAfterClear => SignUseAfterClear
      end
  end.

Definition signature_sign (entropy : list Z) (message private_key : Z)
    (curve : domain_parameters) : sign_result :=
  if mpz_sizeinbase2 message <=? mpz_sizeinbase2 curve.(n)
  then sign_loop Initialised entropy message private_key curve
  else SignAbort.

(** The condition of the [if] that opens [signature_verify]. *)
Definition range_rejects (sig : signature) (curve : domain_parameters) : bool :=
  let one := 1 in
  (mpz_cmp sig.(r) one <? 0) &&
  (mpz_cmp curve.(n) sig.(r) <=? 0) &&
  (mpz_cmp sig.(s) one <? 0) &&
  (mpz_cmp curve.(n) sig.(s) <=? 0).

Definition signature_verify (message : Z) (sig : signature)
    (public_key : point) (curve : domain_parameters) : verify_result :=
  if range_rejects sig curve then Verified false
  else
    match number_theory_inverse sig.(s) curve.(n) with
    | None => VerifyUndefined
    | Some w =>
        match mpz_mod message curve.(n) with
        | None => VerifyDivisionByZero
        | Some tt2 =>
            let t := tt2 * w in
            match mpz_mod t curve.(n) with
            | None => VerifyDivisionByZero
            | Some u1 =>
                let t := sig.(r) * w in
                match mpz_mod t curve.(n) with
                | None => VerifyDivisionByZero
                | Some u2 =>
                    let t1 := point_multiplication u1 curve.(G) curve in
                    let t2 := point_multiplication u2 public_key curve in
                    let x0 := point_addition t1 t2 curve in
                    Verified
                      ((mpz_cmp sig.(r) x0.(x) =? 0) && negb x0.(infinity))
                end
            end
        end
    end.

End Core.

(** * The contracts of the collaborators *)

(** Modelled from the spec: what the core relies on from its collaborators on
    a valid domain.  The order [n] of the base point is prime, and large
    enough for the range of the nonce not to be empty; on the multiples of
    [G], addition and multiplication follow the group law, [n G] is the
    identity and no smaller multiple is; the inverse modulo [n] is defined on
    every value coprime to [n], and what it returns is an inverse. *)
Class ValidDomain {C : Collaborators} (curve : domain_parameters) : Prop := {
  order_prime : Z.prime curve.(n);
  order_large : 3 <= curve.(n);
  multiplication_add : forall u v, 0 <= u -> 0 <= v ->
    point_addition (point_multiplication u curve.(G) curve)
      (point_multiplication v curve.(G) curve) curve =
    point_multiplication (u + v) curve.(G) curve;
  multiplication_mul : forall u v, 0 <= u -> 0 <= v ->
    point_multiplication v (point_multiplication u curve.(G) curve) curve =
    point_multiplication (u * v) curve.(G) curve;
  multiplication_order : forall u, 0 <= u ->
    point_multiplication u curve.(G) curve =
    point_multiplication (u mod curve.(n)) curve.(G) curve;
  multiplication_finite : forall u, 0 < u < curve.(n) ->
    (point_multiplication u curve.(G) curve).(infinity) = false;
  inverse_defined : forall v, Z.gcd v curve.(n) = 1 ->
    exists w, number_theory_inverse v curve.(n) = Some w;
  inverse_sound : forall v w, number_theory_inverse v curve.(n) = Some w ->
    (v * w) mod curve.(n) = 1
}.

(** * A small domain to run the core on *)

(** Modelled from the spec: the code of the collaborators ([point.c],
    [numbertheory.c]) is not part of the core.  This is the textbook affine
    arithmetic of a curve [y^2 = x^3 + a x + b] over the field of [p]
    elements: the point at infinity is the identity (the zero value of
    [point_init] with the flag set), [toy_addition] is the chord-and-tangent
    sum, [toy_multiplication] adds the point to itself [k] times, and
    [toy_inverse] is defined exactly when value and modulus are coprime. *)
Definition point_at_infinity : point := mkPoint 0 0 true.

Definition point_eqb (P Q : point) : bool :=
  (P.(x) =? Q.(x)) && (P.(y) =? Q.(y)) && Bool.eqb P.(infinity) Q.(infinity).

Definition toy_addition (P Q : point) (curve : domain_parameters) : point :=
  if P.(infinity) then Q
  else if Q.(infinity) then P
  else if (P.(x) =? Q.(x)) && ((P.(y) + Q.(y)) mod curve.(p) =? 0)
  then point_at_infinity
  else
    let slope :=
      if P.(x) =? Q.(x)
      then (3 * P.(x) * P.(x) + curve.(a)) * Z.invmod (2 * P.(y)) curve.(p)
      else (Q.(y) - P.(y)) * Z.invmod (Q.(x) - P.(x)) curve.(p) in
    let x3 := (slope * slope - P.(x) - Q.(x)) mod curve.(p) in
    let y3 := (slope * (P.(x) - x3) - P.(y)) mod curve.(p) in
    mkPoint x3 y3 false.

Definition toy_multiplication (k : Z) (P : point) (curve : domain_parameters)
  : point :=
  Nat.iter (Z.to_nat k) (fun R => toy_addition P R curve) point_at_infinity.

Definition toy_inverse (v m : Z) : option Z :=
  if Z.gcd v m =? 1 then Some (Z.invmod v m) else None.

Definition toy : Collaborators := {|
  point_multiplication := toy_multiplication;
  point_addition := toy_addition;
  number_theory_inverse := toy_inverse
|}.

(** [y^2 = x^3 + x + 5] over the field of 43 elements, with the base point
    [(2, 12)], whose order is the prime 37. *)
Definition toy_curve : domain_parameters :=
  mkDomain 43 1 5 (mkPoint 2 12 false) 37.

(** The multiples of the base point, [0 G] to [36 G]. *)
Definition toy_multiple (i : nat) : point :=
  Nat.iter i (fun R => toy_addition toy_curve.(G) R toy_curve)
    point_at_infinity.

Definition toy_points : list point := map toy_multiple (seq 0 37).

Definition toy_point (P : point) : bool := existsb (point_eqb P) toy_points.

(** * Printing *)

(** [mpz_out_str (stdout, 10, u)]: the decimal digits of [u], after a minus
    sign when [u] is negative; ["0"] for zero. *)
Definition mpz_out_str10 (u : Z) : string :=
  DecimalString.NilZero.string_of_int (Z.to_int u).

(** [signature_print]: the text it writes to the standard output, that of
    its three [printf] and two [mpz_out_str] in their order.  The characters
    ["010"] and ["009"] are the line feed and the tabulation. *)
Definition signature_print (sig : signature) : string :=
  (String "010" "Signature (r,s): " ++ String "010" (String "009" "(")
   ++ mpz_out_str10 sig.(r)
   ++ String "," (String "010" (String "009" ""))
   ++ mpz_out_str10 sig.(s)
   ++ String ")" (String "010" ""))%string.

(** The character [c] does not occur in the string. *)
Fixpoint free (c : ascii) (str : string) : bool :=
  match str with
  | EmptyString => true
  | String c' rest => negb (Ascii.eqb c' c) && free c rest
  end.

(** * Properties of the GMP primitives *)

Lemma mpz_cmp_ltb (u v : Z) : (mpz_cmp u v <? 0) = (u <? v).
Proof.
  unfold mpz_cmp, Z.ltb at 2. destruct (u ?= v); reflexivity.
Qed.

Lemma mpz_cmp_leb (u v : Z) : (mpz_cmp u v <=? 0) = (u <=? v).
Proof.
  unfold mpz_cmp, Z.leb at 2. destruct (u ?= v); reflexivity.
Qed.

Lemma mpz_cmp_eqb (u v : Z) : (mpz_cmp u v =? 0) = (u =? v).
Proof.
  unfold mpz_cmp. rewrite (Z.eqb_compare u v). destruct (u ?= v); reflexivity.
Qed.

Lemma mpz_mod_pos (u d : Z) : 0 < d -> mpz_mod u d = Some (u mod d).
Proof.
  intros Hd. unfold mpz_mod.
  destruct (Z.eqb_spec d 0) as [E|_]; [lia|].
  rewrite Z.abs_eq by lia. reflexivity.
Qed.

Lemma mpz_mod_zero (u : Z) : mpz_mod u 0 = None.
Proof. reflexivity. Qed.

Lemma mpz_mod_some (u d v : Z) :
  mpz_mod u d = Some v -> d <> 0 /\ v = u mod Z.abs d.
Proof.
  unfold mpz_mod. destruct (Z.eqb_spec d 0) as [E|E]; [discriminate|].
  intros H. injection H as <-. auto.
Qed.

Lemma mpz_sgn_zero (u : Z) : (mpz_sgn u =? 0) = (u =? 0).
Proof.
  destruct u; reflexivity.
Qed.

Lemma mpz_urandomm_pos (entropy bound : Z) :
  0 < bound -> mpz_urandomm entropy bound = Some (entropy mod bound).
Proof.
  intros Hb. unfold mpz_urandomm.
  destruct (Z.eqb_spec bound 0) as [E|_]; [lia|].
  rewrite Z.abs_eq by lia. reflexivity.
Qed.

Lemma mpz_urandomm_range (entropy bound k : Z) :
  mpz_urandomm entropy bound = Some k -> 0 <= k < Z.abs bound.
Proof.
  unfold mpz_urandomm. destruct (Z.eqb_spec bound 0) as [E|E]; [discriminate|].
  intros H. injection H as <-. apply Z.mod_pos_bound. lia.
Qed.

(** * Signature values *)

Lemma signature_cmp_eq (sig1 sig2 : signature) :
  signature_cmp sig1 sig2 = true <-> sig1 = sig2.
Proof.
  destruct sig1 as [r1 s1], sig2 as [r2 s2]. unfold signature_cmp. simpl.
  rewrite !mpz_cmp_eqb, andb_true_iff, !Z.eqb_eq. split.
  - intros [-> ->]. reflexivity.
  - intros H. injection H as -> ->. auto.
Qed.

Lemma signature_cmp_copy (R sig : signature) :
  signature_cmp (signature_copy R sig) sig = true.
Proof.
  apply signature_cmp_eq. destruct sig. reflexivity.
Qed.

(** * Properties of the core, for any collaborators *)

Section CoreFacts.
Context {C : Collaborators}.

(** ** The range check *)

Lemma range_rejects_false (sig : signature) (curve : domain_parameters) :
  1 <= curve.(n) -> range_rejects sig curve = false.
Proof.
  intros Hn. unfold range_rejects.
  rewrite !mpz_cmp_ltb, !mpz_cmp_leb.
  destruct (Z.ltb_spec sig.(r) 1) as [Hr|Hr]; [|reflexivity].
  destruct (Z.leb_spec curve.(n) sig.(r)) as [Hr'|Hr']; [lia|reflexivity].
Qed.

(** ** The steps of a pass *)

Lemma draw_nonce_some entropy curve :
  3 <= curve.(n) ->
  draw_nonce entropy curve = Some (entropy mod (curve.(n) - 2)).
Proof.
  intros Hn. unfold draw_nonce. apply mpz_urandomm_pos. lia.
Qed.

(** The nonce of an attempt lies in [0, n - 3]: [mpz_urandomm] draws below
    its bound [n - 2], and nothing is added to the draw. *)
Lemma draw_nonce_range entropy curve k :
  3 <= curve.(n) -> draw_nonce entropy curve = Some k ->
  0 <= k <= curve.(n) - 3.
Proof.
  intros Hn H. apply mpz_urandomm_range in H. lia.
Qed.

Lemma nonce_r_pos k curve :
  0 < curve.(n) ->
  nonce_r k curve
  = Some ((point_multiplication k curve.(G) curve).(x) mod curve.(n)).
Proof.
  intros Hn. unfold nonce_r. apply mpz_mod_pos, Hn.
Qed.

Lemma nonce_s_pos t1 r0 message private_key curve :
  0 < curve.(n) ->
  nonce_s t1 r0 message private_key curve
  = Some ((((message + private_key * r0) mod curve.(n)) * t1) mod curve.(n)).
Proof.
  intros Hn. unfold nonce_s. rewrite !mpz_mod_pos by exact Hn. reflexivity.
Qed.

(** ** The passes *)

Lemma sign_attempt_done Q_state entropy message private_key curve sig :
  sign_attempt Q_state entropy message private_key curve = Done sig ->
  Q_state = Initialised /\
  exists k r0 t1 s0,
    draw_nonce entropy curve = Some k /\
    nonce_r k curve = Some r0 /\
    r0 <> 0 /\
    number_theory_inverse k curve.(n) = Some t1 /\
    nonce_s t1 r0 message private_key curve = Some s0 /\
    sig = mkSignature r0 s0.
Proof.
  unfold sign_attempt.
  destruct (draw_nonce entropy curve) as [k|] eqn:Hk; [|discriminate].
  destruct Q_state; [|discriminate].
  destruct (nonce_r k curve) as [r0|] eqn:Hr; [|discriminate].
  rewrite mpz_sgn_zero.
  destruct (Z.eqb_spec r0 0) as [E|E]; [discriminate|].
  destruct (number_theory_inverse k curve.(n)) as [t1|] eqn:Ht;
    [|discriminate].
  destruct (nonce_s t1 r0 message private_key curve) as [s0|] eqn:Hs;
    [|discriminate].
  intros H. injection H as <-. split; [reflexivity|].
  exists k, r0, t1, s0. repeat split; assumption.
Qed.

Lemma sign_attempt_retry entropy message private_key curve k :
  draw_nonce entropy curve = Some k ->
  nonce_r k curve = Some 0 ->
  sign_attempt Initialised entropy message private_key curve = Retry.
Proof.
  intros Hk Hr. unfold sign_attempt. rewrite Hk, Hr. reflexivity.
Qed.

Lemma sign_attempt_accepted entropy message private_key curve k r0 t1 s0 :
  draw_nonce entropy curve = Some k ->
  nonce_r k curve = Some r0 ->
  r0 <> 0 ->
  number_theory_inverse k curve.(n) = Some t1 ->
  nonce_s t1 r0 message private_key curve = Some s0 ->
  sign_attempt Initialised entropy message private_key curve
  = Done (mkSignature r0 s0).
Proof.
  intros Hk Hr Hr0 Ht Hs. unfold sign_attempt.
  rewrite Hk, Hr, mpz_sgn_zero.
  destruct (Z.eqb_spec r0 0) as [E|_]; [contradiction|].
  rewrite Ht, Hs. reflexivity.
Qed.

(** A pass entered with [Q] released draws its nonce and then hands the
    released [Q] to [point_multiplication]. *)
Lemma sign_attempt_cleared entropy message private_key curve :
  sign_attempt Cleared entropy message private_key curve
  = match draw_nonce entropy curve with
    | None => DivisionByZero
    | Some _ => UseAfterClear
    end.
Proof.
  unfold sign_attempt. destruct (draw_nonce entropy curve); reflexivity.
Qed.

Lemma sign_loop_cleared entropy message private_key curve :
  sign_loop Cleared entropy message private_key curve
  = match entropy with
    | [] => SignStarved
    | e :: _ =>
        match draw_nonce e curve with
        | None => SignDivisionByZero
        | Some _ => SignUseAfterClear
        end
    end.
Proof.
  destruct entropy as [|e rest]; [reflexivity|]. simpl.
  rewrite sign_attempt_cleared. destruct (draw_nonce e curve); reflexivity.
Qed.

(** A signature is returned by the first pass or not at all. *)
Lemma sign_loop_signed Q_state entropy message private_key curve sig :
  sign_loop Q_state entropy message private_key curve = Signed sig ->
  exists e rest, entropy = e :: rest /\
    sign_attempt Initialised e message private_key curve = Done sig.
Proof.
  destruct entropy as [|e rest]; simpl; [discriminate|].
  destruct (sign_attempt Q_state e message private_key curve)
    as [| |sig'| |] eqn:He; try discriminate.
  - rewrite sign_loop_cleared. destruct rest as [|e' rest'];
      [discriminate|]. destruct (draw_nonce e' curve); discriminate.
  - intros H. injection H as <-.
    destruct (sign_attempt_done _ _ _ _ _ _ He) as [-> _].
    exists e, rest. auto.
Qed.

Lemma signature_sign_signed entropy message private_key curve sig :
  signature_sign entropy message private_key curve = Signed sig ->
  mpz_sizeinbase2 message <= mpz_sizeinbase2 curve.(n) /\
  exists e rest, entropy = e :: rest /\
    sign_attempt Initialised e message private_key curve = Done sig.
Proof.
  unfold signature_sign.
  destruct (Z.leb_spec (mpz_sizeinbase2 message) (mpz_sizeinbase2 curve.(n)))
    as [Hle|Hgt]; [|discriminate].
  intros H. split; [exact Hle|]. exact (sign_loop_signed _ _ _ _ _ _ H).
Qed.

Lemma sign_loop_not_abort Q_state entropy message private_key curve :
  sign_loop Q_state entropy message private_key curve <> SignAbort.
Proof.
  revert Q_state. induction entropy as [|e rest IH]; intros Q_state; simpl;
    [discriminate|].
  destruct (sign_attempt Q_state e message private_key curve);
    try discriminate. apply IH.
Qed.

Lemma signature_sign_passed entropy message private_key curve :
  mpz_sizeinbase2 message <= mpz_sizeinbase2 curve.(n) ->
  signature_sign entropy message private_key curve
  = sign_loop Initialised entropy message private_key curve.
Proof.
  intros Hle. unfold signature_sign.
  destruct (Z.leb_spec (mpz_sizeinbase2 message) (mpz_sizeinbase2 curve.(n)));
    [reflexivity|lia].
Qed.

(** Nothing in [signature_sign] looks at [s]: a first pass with [r <> 0]
    returns its signature, whatever [s] is. *)
Lemma sign_returns_any_s e rest message private_key curve k r0 t1 s0 :
  mpz_sizeinbase2 message <= mpz_sizeinbase2 curve.(n) ->
  draw_nonce e curve = Some k ->
  nonce_r k curve = Some r0 ->
  r0 <> 0 ->
  number_theory_inverse k curve.(n) = Some t1 ->
  nonce_s t1 r0 message private_key curve = Some s0 ->
  signature_sign (e :: rest) message private_key curve
  = Signed (mkSignature r0 s0).
Proof.
  intros Hle Hk Hr Hr0 Ht Hs.
  rewrite signature_sign_passed by exact Hle. simpl.
  rewrite (sign_attempt_accepted e message private_key curve k r0 t1 s0)
    by assumption.
  reflexivity.
Qed.

(** A first pass with [r = 0] jumps back to the label; the second pass draws
    its nonce and calls [point_multiplication] on the [Q] that the first pass
    released. *)
Lemma sign_retry_cleared e e' rest message private_key curve k k' :
  mpz_sizeinbase2 message <= mpz_sizeinbase2 curve.(n) ->
  draw_nonce e curve = Some k ->
  nonce_r k curve = Some 0 ->
  draw_nonce e' curve = Some k' ->
  signature_sign (e :: e' :: rest) message private_key curve
  = SignUseAfterClear.
Proof.
  intros Hle Hk Hr Hk'.
  rewrite signature_sign_passed by exact Hle. simpl.
  rewrite (sign_attempt_retry e message private_key curve k Hk Hr).
  rewrite sign_attempt_cleared, Hk'. reflexivity.
Qed.

End CoreFacts.

Lemma mpz_sizeinbase2_bits (u : Z) :
  0 < u -> 2 ^ (mpz_sizeinbase2 u - 1) <= u < 2 ^ mpz_sizeinbase2 u.
Proof.
  intros Hu. unfold mpz_sizeinbase2.
  destruct (Z.eqb_spec u 0) as [E|_]; [lia|].
  rewrite Z.abs_eq by lia.
  replace (Z.log2 u + 1 - 1) with (Z.log2 u) by lia.
  replace (Z.log2 u + 1) with (Z.succ (Z.log2 u)) by lia.
  apply Z.log2_spec, Hu.
Qed.

Section Claims.
Context {C : Collaborators}.

(** C4: for a group order [n >= 1] the four comparisons that guard the
    rejection in [signature_verify] cannot hold together, so the condition of
    the range check evaluates to false for every signature: the check never
    makes [signature_verify] return false. *)
Theorem verify_range_check_unreachable (sig : signature)
    (curve : domain_parameters) :
  1 <= curve.(n) ->
  ~ (sig.(r) < 1 /\ curve.(n) <= sig.(r) /\
     sig.(s) < 1 /\ curve.(n) <= sig.(s)) /\
  range_rejects sig curve = false.
Proof.
  intros Hn. split; [lia|]. apply range_rejects_false, Hn.
Qed.

(** C5: for a group order [n >= 1], [signature_verify] accepts exactly when
    the inverse [w] of [s] modulo [n] is there and, with
    [u1 = (message mod n) * w mod n], [u2 = r * w mod n] and
    [X = u1 G + u2 Q], the point [X] is not at infinity and its x-coordinate
    is the integer [r] itself (no reduction modulo [n]). *)
Theorem verify_accepts_iff (message : Z) (sig : signature)
    (public_key : point) (curve : domain_parameters) :
  1 <= curve.(n) ->
  signature_verify message sig public_key curve = Verified true <->
  exists w,
    number_theory_inverse sig.(s) curve.(n) = Some w /\
    let u1 := ((message mod curve.(n)) * w) mod curve.(n) in
    let u2 := (sig.(r) * w) mod curve.(n) in
    let X := point_addition (point_multiplication u1 curve.(G) curve)
               (point_multiplication u2 public_key curve) curve in
    X.(infinity) = false /\ X.(x) = sig.(r).
Proof.
  intros Hn. unfold signature_verify.
  rewrite range_rejects_false by exact Hn.
  destruct (number_theory_inverse sig.(s) curve.(n)) as [w|].
  - rewrite (mpz_mod_pos message) by lia. cbv zeta.
    rewrite !mpz_mod_pos by lia. rewrite mpz_cmp_eqb. split.
    + intros H. injection H as H.
      apply andb_true_iff in H. destruct H as [Hx Hinf].
      exists w. split; [reflexivity|]. split.
      * apply negb_true_iff, Hinf.
      * symmetry. apply Z.eqb_eq, Hx.
    + intros (w' & Hw & Hinf & Hx). injection Hw as <-.
      rewrite Hinf, Hx, Z.eqb_refl. reflexivity.
  - split; [discriminate|]. intros (w & Hw & _). discriminate.
Qed.

(** C6: a signature returned by [signature_sign] has
    [s = k^-1 * (message + private_key * r) mod n], computed by the sequence
    [t1 = k^-1 mod n; t2 = private_key * r; t3 = message + t2; t2 = t3 mod n;
    t3 = t2 * t1; s = t3 mod n], where [k] is the nonce of the accepted
    attempt and [r] the x-coordinate of [k G] reduced modulo [n]. *)
Theorem sign_s_component (entropy : list Z) (message private_key : Z)
    (curve : domain_parameters) (sig : signature) :
  0 < curve.(n) ->
  signature_sign entropy message private_key curve = Signed sig ->
  exists e k t1,
    In e entropy /\
    draw_nonce e curve = Some k /\
    number_theory_inverse k curve.(n) = Some t1 /\
    sig.(r) = (point_multiplication k curve.(G) curve).(x) mod curve.(n) /\
    sig.(s) = (((message + private_key * sig.(r)) mod curve.(n)) * t1)
                mod curve.(n) /\
    sig.(s) = (t1 * (message + private_key * sig.(r))) mod curve.(n).
Proof.
  intros Hn H.
  apply signature_sign_signed in H.
  destruct H as (_ & e & rest & -> & He).
  apply sign_attempt_done in He.
  destruct He as (_ & k & r0 & t1 & s0 & Hk & Hr & _ & Hinv & Hs & ->).
  rewrite nonce_r_pos in Hr by exact Hn. injection Hr as <-.
  rewrite nonce_s_pos in Hs by exact Hn. injection Hs as <-.
  exists e, k, t1. split; [left; reflexivity|].
  split; [exact Hk|]. split; [exact Hinv|]. simpl.
  split; [reflexivity|]. split; [reflexivity|].
  rewrite Z.mul_mod_idemp_l by lia. f_equal. apply Z.mul_comm.
Qed.

End Claims.

(** * Signing then verifying, on a valid domain *)

(** The scalar that verification multiplies [G] by is the nonce again. *)
Lemma verify_scalar (q message d k t1 r0 w : Z) :
  q <> 0 ->
  (k * t1) mod q = 1 ->
  ((((message + d * r0) mod q * t1) mod q) * w) mod q = 1 ->
  (((message mod q) * w) mod q + d * ((r0 * w) mod q)) mod q = k mod q.
Proof.
  intros Hq' Hk Hw.
  rewrite Z.mul_mod_idemp_l, <- Z.mul_assoc, Z.mul_mod_idemp_l in Hw
    by exact Hq'.
  rewrite Z.add_mod_idemp_l by exact Hq'.
  rewrite Z.add_mod by exact Hq'.
  rewrite Z.mul_mod_idemp_l, Z.mul_mod_idemp_r by exact Hq'.
  rewrite <- Z.add_mod by exact Hq'.
  replace (message * w + d * (r0 * w)) with ((message + d * r0) * w) by ring.
  rewrite <- (Z.mul_1_r ((message + d * r0) * w)), <- Hk.
  rewrite Z.mul_mod_idemp_r by exact Hq'.
  replace ((message + d * r0) * w * (k * t1))
    with (k * ((message + d * r0) * (t1 * w))) by ring.
  rewrite <- Z.mul_mod_idemp_r, Hw by exact Hq'.
  rewrite Z.mul_1_r. reflexivity.
Qed.

(** For a positive [n] no division of [signature_verify] is by zero, and the
    range check lets every signature through: the call is the inverse of [s]
    followed by the comparison. *)
Lemma signature_verify_pos {C : Collaborators} (message : Z) (sig : signature)
    (public_key : point) (curve : domain_parameters) :
  1 <= curve.(n) ->
  signature_verify message sig public_key curve
  = match number_theory_inverse sig.(s) curve.(n) with
    | None => VerifyUndefined
    | Some w =>
        let u1 := ((message mod curve.(n)) * w) mod curve.(n) in
        let u2 := (sig.(r) * w) mod curve.(n) in
        let X := point_addition (point_multiplication u1 curve.(G) curve)
                   (point_multiplication u2 public_key curve) curve in
        Verified ((sig.(r) =? X.(x)) && negb X.(infinity))
    end.
Proof.
  intros Hn. unfold signature_verify.
  rewrite range_rejects_false by exact Hn.
  destruct (number_theory_inverse sig.(s) curve.(n)) as [w|]; [|reflexivity].
  rewrite (mpz_mod_pos message) by lia. cbv zeta.
  rewrite !mpz_mod_pos by lia. rewrite mpz_cmp_eqb. reflexivity.
Qed.

Section RoundTrip.
Context {C : Collaborators} (curve : domain_parameters).
Context {V : ValidDomain curve}.

Lemma order_pos : 0 < curve.(n).
Proof. pose proof order_large. lia. Qed.

(** A value with an inverse is not a multiple of [n]. *)
Lemma inverse_nonzero v w :
  number_theory_inverse v curve.(n) = Some w -> v mod curve.(n) <> 0.
Proof.
  intros Hw Hz. apply inverse_sound in Hw.
  pose proof order_large.
  rewrite <- Z.mul_mod_idemp_l, Hz in Hw by lia.
  rewrite Z.mul_0_l, Z.mod_0_l in Hw by lia. discriminate.
Qed.

(** The inverse of 0 is undefined. *)
Lemma inverse_zero_undefined : number_theory_inverse 0 curve.(n) = None.
Proof.
  destruct (number_theory_inverse 0 curve.(n)) as [w|] eqn:Hw; [|reflexivity].
  exfalso. apply (inverse_nonzero 0 w Hw). pose proof order_large.
  apply Z.mod_0_l. lia.
Qed.

(** A residue that is not zero has an inverse. *)
Lemma inverse_residue v :
  0 < v < curve.(n) -> exists w, number_theory_inverse v curve.(n) = Some w.
Proof.
  intros Hv. apply inverse_defined.
  rewrite Z.gcd_comm. apply Z.coprime_prime_small; [apply order_prime|lia].
Qed.

(** Verifying the signature of an accepted attempt, under the public key of
    the private key that signed, recomputes the point [k G] of the attempt and
    compares [r] with its x-coordinate, provided [s] is not zero. *)
Lemma attempt_verify_result e k message d sig :
  0 <= d ->
  draw_nonce e curve = Some k ->
  sign_attempt Initialised e message d curve = Done sig ->
  sig.(s) <> 0 ->
  signature_verify message sig (signature_generate_key d curve) curve
  = Verified (sig.(r) =? (point_multiplication k curve.(G) curve).(x)).
Proof.
  intros Hd Hdraw He Hs.
  pose proof order_large as Hq. pose proof order_pos as Hpos.
  apply sign_attempt_done in He.
  destruct He as (_ & k' & r0 & t1 & s0 & Hk' & Hr & Hr0 & Hk & Hs0 & ->).
  rewrite Hdraw in Hk'. injection Hk' as <-.
  pose proof (draw_nonce_range e curve k Hq Hdraw) as Hkr.
  rewrite nonce_s_pos in Hs0 by exact Hpos. injection Hs0 as <-.
  simpl in Hs.
  destruct (inverse_residue
    ((((message + d * r0) mod curve.(n)) * t1) mod curve.(n))) as [w Hw].
  { pose proof (Z.mod_pos_bound
      (((message + d * r0) mod curve.(n)) * t1) curve.(n) Hpos). lia. }
  rewrite signature_verify_pos by lia. simpl. rewrite Hw. cbv zeta.
  unfold signature_generate_key.
  pose proof (Z.mod_pos_bound ((message mod curve.(n)) * w) curve.(n) Hpos).
  pose proof (Z.mod_pos_bound (r0 * w) curve.(n) Hpos).
  rewrite multiplication_mul, multiplication_add by nia.
  rewrite multiplication_order by nia.
  assert (Hsum :
    (((message mod curve.(n)) * w) mod curve.(n)
     + d * ((r0 * w) mod curve.(n))) mod curve.(n)
    = k mod curve.(n)).
  { apply (verify_scalar curve.(n) message d k t1 r0 w).
    - lia.
    - apply inverse_sound, Hk.
    - apply inverse_sound in Hw. exact Hw. }
  rewrite Hsum.
  pose proof (inverse_nonzero k t1 Hk) as Hk0.
  rewrite Z.mod_small in Hk0 |- * by lia.
  rewrite multiplication_finite by lia.
  apply f_equal, andb_true_r.
Qed.

(** So the signature of an accepted attempt verifies exactly when the
    x-coordinate of [k G] is below [n]: [r] is that coordinate reduced modulo
    [n], and [signature_verify] compares [r] with the coordinate itself. *)
Lemma attempt_round_trip_iff e k message d sig :
  0 <= d ->
  draw_nonce e curve = Some k ->
  sign_attempt Initialised e message d curve = Done sig ->
  sig.(s) <> 0 ->
  signature_verify message sig (signature_generate_key d curve) curve
  = Verified true <->
  0 <= (point_multiplication k curve.(G) curve).(x) < curve.(n).
Proof.
  intros Hd Hdraw He Hs. pose proof order_pos as Hpos.
  rewrite (attempt_verify_result e k message d sig Hd Hdraw He Hs).
  apply sign_attempt_done in He.
  destruct He as (_ & k' & r0 & t1 & s0 & Hk' & Hr & _ & _ & _ & ->).
  rewrite Hdraw in Hk'. injection Hk' as <-.
  rewrite nonce_r_pos in Hr by exact Hpos. injection Hr as <-.
  simpl. split.
  - intros H. injection H as H. apply Z.eqb_eq in H. rewrite <- H.
    apply Z.mod_pos_bound, Hpos.
  - intros H. rewrite Z.mod_small by exact H. rewrite Z.eqb_refl. reflexivity.
Qed.

(** Signing then verifying returns true when the draws that are not rejected
    lead to a point whose x-coordinate is below [n] and the signature has an
    [s] that is not zero. *)
Theorem sign_verify_round_trip entropy message d sig :
  0 <= d ->
  (forall e k, In e entropy ->
     draw_nonce e curve = Some k ->
     nonce_r k curve <> Some 0 ->
     0 <= (point_multiplication k curve.(G) curve).(x) < curve.(n)) ->
  signature_sign entropy message d curve = Signed sig ->
  sig.(s) <> 0 ->
  signature_verify message sig (signature_generate_key d curve) curve
  = Verified true.
Proof.
  intros Hd Hx H Hs.
  apply signature_sign_signed in H.
  destruct H as (_ & e & rest & -> & He).
  pose proof (sign_attempt_done _ _ _ _ _ _ He)
    as (_ & k & r0 & _ & _ & Hk & Hr & Hr0 & _).
  apply (attempt_round_trip_iff e k message d sig Hd Hk He Hs).
  apply (Hx e k); [left; reflexivity|exact Hk|].
  rewrite Hr. intros E. injection E as E. contradiction.
Qed.

(** A signature whose [s] is zero does not verify: the inverse of [s] is
    undefined. *)
Lemma verify_zero_s_undefined message sig public_key :
  sig.(s) = 0 ->
  signature_verify message sig public_key curve = VerifyUndefined.
Proof.
  intros Hs. pose proof order_pos.
  rewrite signature_verify_pos by lia.
  rewrite Hs, inverse_zero_undefined. reflexivity.
Qed.

(** On a valid domain the range check lets the signature [(0, 0)] through,
    and the inverse of its [s] is undefined. *)
Lemma verify_zero_signature_undefined message sig0 public_key :
  signature_verify message (signature_set_ui sig0 0 0) public_key curve
  = VerifyUndefined.
Proof.
  apply verify_zero_s_undefined. reflexivity.
Qed.

End RoundTrip.

(** * The small domain is valid *)

Lemma point_eqb_eq (P Q : point) : point_eqb P Q = true <-> P = Q.
Proof.
  destruct P as [x1 y1 i1], Q as [x2 y2 i2]. unfold point_eqb. simpl.
  rewrite !andb_true_iff, !Z.eqb_eq, Bool.eqb_true_iff. split.
  - intros [[-> ->] ->]. reflexivity.
  - intros H. injection H as -> -> ->. auto.
Qed.

Lemma toy_point_In (P : point) : toy_point P = true <-> In P toy_points.
Proof.
  unfold toy_point. rewrite existsb_exists. split.
  - intros (Q & HQ & E). apply point_eqb_eq in E. subst Q. exact HQ.
  - intros H. exists P. split; [exact H|]. apply point_eqb_eq. reflexivity.
Qed.

Lemma toy_multiple_In (i : nat) : (i < 37)%nat -> In (toy_multiple i) toy_points.
Proof.
  intros Hi. unfold toy_points. apply in_map, in_seq. lia.
Qed.

(** The 37 multiples are closed under addition, and addition is associative
    on them: both by running the addition on all of them. *)
Lemma toy_addition_closed (P Q : point) :
  In P toy_points -> In Q toy_points ->
  In (toy_addition P Q toy_curve) toy_points.
Proof.
  assert (H : forallb (fun P' => forallb (fun Q' =>
            toy_point (toy_addition P' Q' toy_curve)) toy_points) toy_points
          = true) by (vm_compute; reflexivity).
  intros HP HQ. rewrite forallb_forall in H. specialize (H P HP).
  rewrite forallb_forall in H. apply toy_point_In, H, HQ.
Qed.

Lemma toy_addition_assoc (P Q R : point) :
  In P toy_points -> In Q toy_points -> In R toy_points ->
  toy_addition (toy_addition P Q toy_curve) R toy_curve =
  toy_addition P (toy_addition Q R toy_curve) toy_curve.
Proof.
  assert (H : forallb (fun P' => forallb (fun Q' => forallb (fun R' =>
            point_eqb
              (toy_addition (toy_addition P' Q' toy_curve) R' toy_curve)
              (toy_addition P' (toy_addition Q' R' toy_curve) toy_curve))
            toy_points) toy_points) toy_points = true)
    by (vm_compute; reflexivity).
  intros HP HQ HR. rewrite forallb_forall in H. specialize (H P HP).
  rewrite forallb_forall in H. specialize (H Q HQ).
  rewrite forallb_forall in H. apply point_eqb_eq, H, HR.
Qed.

Lemma toy_multiple_closed (i : nat) : In (toy_multiple i) toy_points.
Proof.
  induction i as [|i IH].
  - apply (toy_multiple_In 0). lia.
  - change (toy_multiple (S i))
      with (toy_addition toy_curve.(G) (toy_multiple i) toy_curve).
    apply toy_addition_closed; [|exact IH]. apply (toy_multiple_In 1). lia.
Qed.

Lemma toy_multiple_add (i j : nat) :
  toy_addition (toy_multiple i) (toy_multiple j) toy_curve
  = toy_multiple (i + j).
Proof.
  induction i as [|i IH].
  - reflexivity.
  - change (toy_multiple (S i))
      with (toy_addition toy_curve.(G) (toy_multiple i) toy_curve).
    rewrite toy_addition_assoc, IH.
    + reflexivity.
    + apply (toy_multiple_In 1). lia.
    + apply toy_multiple_closed.
    + apply toy_multiple_closed.
Qed.

Lemma toy_multiple_mul (i j : nat) :
  Nat.iter j (fun R => toy_addition (toy_multiple i) R toy_curve)
    point_at_infinity
  = toy_multiple (i * j).
Proof.
  induction j as [|j IH].
  - rewrite Nat.mul_0_r. reflexivity.
  - simpl Nat.iter. rewrite IH, toy_multiple_add. f_equal. lia.
Qed.

Lemma toy_multiple_order (c : nat) : toy_multiple (37 * c) = point_at_infinity.
Proof.
  induction c as [|c IH].
  - reflexivity.
  - replace (37 * S c)%nat with (37 * c + 37)%nat by lia.
    rewrite <- toy_multiple_add, IH. vm_compute. reflexivity.
Qed.

Lemma toy_multiple_mod (i : nat) : toy_multiple i = toy_multiple (i mod 37).
Proof.
  rewrite (Nat.div_mod_eq i 37) at 1.
  rewrite <- toy_multiple_add, toy_multiple_order. reflexivity.
Qed.

Lemma toy_multiple_finite (i : nat) :
  (0 < i < 37)%nat -> (toy_multiple i).(infinity) = false.
Proof.
  assert (H : forallb (fun i' => negb (toy_multiple i').(infinity)) (seq 1 36)
          = true) by (vm_compute; reflexivity).
  intros Hi. rewrite forallb_forall in H.
  apply negb_true_iff, H, in_seq. lia.
Qed.

Lemma toy_multiplication_multiple (u : Z) :
  toy_multiplication u toy_curve.(G) toy_curve = toy_multiple (Z.to_nat u).
Proof. reflexivity. Qed.

Lemma toy_base_point_on_curve :
  let P := toy_curve.(G) in
  (P.(y) * P.(y)) mod toy_curve.(p)
  = (P.(x) * P.(x) * P.(x) + toy_curve.(a) * P.(x) + toy_curve.(b))
      mod toy_curve.(p).
Proof. reflexivity. Qed.

Lemma prime_37 : Z.prime 37.
Proof.
  split; [lia|]. intros m Hm [c Hc].
  assert (H : 2 <= m <= 36) by lia. clear Hm.
  assert (Hc' : 2 <= c <= 18) by nia.
  assert (E : m * c = 37) by lia. clear Hc.
  assert (H6 : m <= 6 \/ c <= 6) by nia.
  destruct H6 as [H6|H6].
  - assert (D : m = 2 \/ m = 3 \/ m = 4 \/ m = 5 \/ m = 6) by lia.
    destruct D as [->|[->|[->|[->| ->]]]]; lia.
  - assert (D : c = 2 \/ c = 3 \/ c = 4 \/ c = 5 \/ c = 6) by lia.
    destruct D as [->|[->|[->|[->| ->]]]]; lia.
Qed.

Lemma toy_inverse_sound (v m w : Z) :
  2 <= m -> toy_inverse v m = Some w -> (v * w) mod m = 1.
Proof.
  unfold toy_inverse. intros Hm.
  destruct (Z.eqb_spec (Z.gcd v m) 1) as [Hg|Hg]; [|discriminate].
  intros H. injection H as <-. rewrite Z.mul_comm.
  apply Z.invmod_coprime; assumption.
Qed.

#[export] Instance toy_curve_valid : ValidDomain (C := toy) toy_curve.
Proof.
  constructor; simpl.
  - exact prime_37.
  - lia.
  - intros u v Hu Hv. unfold toy_multiplication.
    change (toy_addition (toy_multiple (Z.to_nat u))
              (toy_multiple (Z.to_nat v)) toy_curve
            = toy_multiple (Z.to_nat (u + v))).
    rewrite toy_multiple_add, Z2Nat.inj_add by assumption. reflexivity.
  - intros u v Hu Hv. unfold toy_multiplication.
    change (Nat.iter (Z.to_nat v)
              (fun R => toy_addition (toy_multiple (Z.to_nat u)) R toy_curve)
              point_at_infinity
            = toy_multiple (Z.to_nat (u * v))).
    rewrite toy_multiple_mul, Z2Nat.inj_mul by assumption. reflexivity.
  - intros u Hu.
    change (toy_multiple (Z.to_nat u) = toy_multiple (Z.to_nat (u mod 37))).
    rewrite toy_multiple_mod. f_equal.
    rewrite <- (Nat2Z.id (Z.to_nat u mod 37)). f_equal.
    rewrite Nat2Z.inj_mod, Z2Nat.id by assumption. reflexivity.
  - intros u Hu.
    change ((toy_multiple (Z.to_nat u)).(infinity) = false).
    apply toy_multiple_finite. lia.
  - intros v Hv. unfold toy_inverse. rewrite Hv. simpl. eauto.
  - intros v w. apply toy_inverse_sound. lia.
Qed.


(** * The core on the small domain *)

(** The public key of the private key 5. *)
Lemma toy_public_key :
  signature_generate_key (C := toy) 5 toy_curve = mkPoint 30 17 false.
Proof. vm_compute. reflexivity. Qed.

(** C1: signing the digest 42 with the private key 5 on the small domain,
    with the nonce 10, gives a point with x-coordinate 39, above [n = 37]:
    the signature has [r = 39 mod 37 = 2], and [signature_verify], which
    compares [r] with the x-coordinate itself, returns false.  With the
    digest 27 and the nonce 1 the signature has [s = 0], whose inverse
    [signature_verify] asks for. *)
Theorem round_trip_fails_on_small_domain :
  1 <= 5 <= toy_curve.(n) - 1 /\
  mpz_sizeinbase2 42 <= mpz_sizeinbase2 toy_curve.(n) /\
  draw_nonce 10 toy_curve = Some 10 /\
  (toy_multiplication 10 toy_curve.(G) toy_curve).(x) = 39 /\
  signature_sign (C := toy) [10] 42 5 toy_curve = Signed (mkSignature 2 20) /\
  signature_verify (C := toy) 42 (mkSignature 2 20)
    (signature_generate_key (C := toy) 5 toy_curve) toy_curve
  = Verified false /\
  signature_sign (C := toy) [1] 27 5 toy_curve = Signed (mkSignature 2 0) /\
  signature_verify (C := toy) 27 (mkSignature 2 0)
    (signature_generate_key (C := toy) 5 toy_curve) toy_curve
  = VerifyUndefined.
Proof.
  repeat split; try (simpl; lia); vm_compute; congruence.
Qed.

(** C2: on the small domain [(2, 15)] is a signature of the digest 42 under
    the public key of 5; [signature_verify] also accepts [(2, 15 + n)], whose
    [s] is above [n - 1], and [(39, 20)], whose [r] is: the range check
    rejects neither. *)
Theorem verify_accepts_out_of_range :
  ~ (1 <= 52 <= toy_curve.(n) - 1) /\
  signature_verify (C := toy) 42 (mkSignature 2 52)
    (signature_generate_key (C := toy) 5 toy_curve) toy_curve
  = Verified true /\
  ~ (1 <= 39 <= toy_curve.(n) - 1) /\
  signature_verify (C := toy) 42 (mkSignature 39 20)
    (signature_generate_key (C := toy) 5 toy_curve) toy_curve
  = Verified true.
Proof.
  repeat split; try (simpl; lia); vm_compute; reflexivity.
Qed.

(** C3: the nonce drawn from the entropy 0 is 0; the first pass multiplies
    [G] by it, finds [r = 0] and jumps back to the label, and the call ends
    in the next pass, which hands the released [Q] to
    [point_multiplication]. *)
Theorem sign_draws_nonce_zero :
  draw_nonce 0 toy_curve = Some 0 /\
  nonce_r (C := toy) 0 toy_curve = Some 0 /\
  sign_attempt (C := toy) Initialised 0 42 5 toy_curve = Retry /\
  signature_sign (C := toy) [0; 1] 42 5 toy_curve = SignUseAfterClear.
Proof.
  repeat split; vm_compute; reflexivity.
Qed.

(** C7: on the small domain the nonce 8 gives the point [8 G], whose
    x-coordinate is [n = 37], so [r = 0] and the pass jumps back to the
    label.  The point [Q] was created before the label and released in the
    pass, so the next pass, which draws the nonce 1, calls
    [point_multiplication] on the released [Q]: the call does not go on to
    return the signature that the nonce 1 gives when it is drawn first. *)
Theorem sign_restart_uses_cleared_point :
  draw_nonce 8 toy_curve = Some 8 /\
  (toy_multiplication 8 toy_curve.(G) toy_curve).(x) = 37 /\
  nonce_r (C := toy) 8 toy_curve = Some 0 /\
  sign_attempt (C := toy) Initialised 8 42 5 toy_curve = Retry /\
  sign_attempt (C := toy) Cleared 1 42 5 toy_curve = UseAfterClear /\
  signature_sign (C := toy) [8; 1] 42 5 toy_curve = SignUseAfterClear /\
  signature_sign (C := toy) [1] 42 5 toy_curve = Signed (mkSignature 2 15).
Proof.
  repeat split; vm_compute; reflexivity.
Qed.

(** C8: [signature_sign] does not start over when [s = 0].  On the small
    domain, the digest 27, the private key 5 and the nonce 1 give
    [k^-1 * (message + private_key * r) = 0 mod n], and the call, given that
    single draw, returns the signature [(2, 0)]. *)
Theorem sign_returns_zero_s :
  exists message private_key e k t1 sig,
    1 <= private_key <= toy_curve.(n) - 1 /\
    mpz_sizeinbase2 message <= mpz_sizeinbase2 toy_curve.(n) /\
    draw_nonce e toy_curve = Some k /\
    number_theory_inverse (Collaborators := toy) k toy_curve.(n) = Some t1 /\
    (t1 * (message + private_key * sig.(r))) mod toy_curve.(n) = 0 /\
    signature_sign (C := toy) [e] message private_key toy_curve = Signed sig /\
    sig.(s) = 0.
Proof.
  exists 27, 5, 1, 1, 1, (mkSignature 2 0).
  split; [simpl; lia|].
  split; [vm_compute; discriminate|].
  split; [reflexivity|].
  split; [reflexivity|].
  split; [reflexivity|].
  split; [|reflexivity].
  apply (sign_returns_any_s (C := toy) 1 [] 27 5 toy_curve 1 2 1 0).
  - vm_compute. discriminate.
  - reflexivity.
  - reflexivity.
  - discriminate.
  - reflexivity.
  - reflexivity.
Qed.

(** C10: the assertion of [signature_sign] fails exactly when the message
    has more bits than [n].  On the small domain the digest 42 has the six
    bits of [n = 37] and passes; but when the first draw is the nonce 0 the
    call does not complete: the pass finds [r = 0], jumps back to the label
    and hands the released [Q] to [point_multiplication]. *)
Theorem sign_passes_assertion_then_fails :
  (forall (C : Collaborators) entropy message private_key curve,
     signature_sign entropy message private_key curve = SignAbort <->
     mpz_sizeinbase2 message > mpz_sizeinbase2 curve.(n)) /\
  mpz_sizeinbase2 42 <= mpz_sizeinbase2 toy_curve.(n) /\
  signature_sign (C := toy) [0; 1] 42 5 toy_curve = SignUseAfterClear.
Proof.
  split; [|split].
  - intros C entropy message private_key curve. unfold signature_sign.
    destruct (Z.leb_spec (mpz_sizeinbase2 message) (mpz_sizeinbase2 curve.(n)))
      as [Hle|Hgt].
    + split; [|lia]. intros H. exfalso.
      exact (sign_loop_not_abort _ _ _ _ _ H).
    + split; [lia|reflexivity].
  - vm_compute. discriminate.
  - vm_compute. reflexivity.
Qed.

(** * The general properties, at the small domain *)

Lemma verify_range_check_unreachable_witness :
  1 <= toy_curve.(n) /\
  (~ (0 < 1 /\ toy_curve.(n) <= 0 /\ 0 < 1 /\ toy_curve.(n) <= 0) /\
   range_rejects (mkSignature 0 0) toy_curve = false).
Proof.
  split.
  - simpl. lia.
  - apply (verify_range_check_unreachable (mkSignature 0 0) toy_curve).
    simpl. lia.
Defined.

Lemma verify_accepts_iff_witness :
  1 <= toy_curve.(n) /\
  (signature_verify (C := toy) 42 (mkSignature 2 15) (mkPoint 30 17 false)
     toy_curve = Verified true <->
   exists w,
     toy_inverse 15 37 = Some w /\
     let u1 := ((42 mod 37) * w) mod 37 in
     let u2 := (2 * w) mod 37 in
     let X := toy_addition (toy_multiplication u1 toy_curve.(G) toy_curve)
                (toy_multiplication u2 (mkPoint 30 17 false) toy_curve)
                toy_curve in
     X.(infinity) = false /\ X.(x) = 2).
Proof.
  split.
  - simpl. lia.
  - apply (verify_accepts_iff (C := toy) 42 (mkSignature 2 15)
             (mkPoint 30 17 false) toy_curve).
    simpl. lia.
Defined.

Lemma sign_s_component_witness :
  0 < toy_curve.(n) /\
  signature_sign (C := toy) [1; 0] 42 5 toy_curve = Signed (mkSignature 2 15) /\
  exists e k t1,
    In e [1; 0] /\
    draw_nonce e toy_curve = Some k /\
    toy_inverse k 37 = Some t1 /\
    2 = (toy_multiplication k toy_curve.(G) toy_curve).(x) mod 37 /\
    15 = (((42 + 5 * 2) mod 37) * t1) mod 37 /\
    15 = (t1 * (42 + 5 * 2)) mod 37.
Proof.
  split; [simpl; lia|]. split; [vm_compute; reflexivity|].
  apply (sign_s_component (C := toy) [1; 0] 42 5 toy_curve (mkSignature 2 15)).
  - simpl. lia.
  - vm_compute. reflexivity.
Defined.

Lemma sign_verify_round_trip_witness :
  signature_sign (C := toy) [1] 42 5 toy_curve
  = Signed (mkSignature 2 15) /\
  signature_verify (C := toy) 42 (mkSignature 2 15)
    (signature_generate_key (C := toy) 5 toy_curve) toy_curve
  = Verified true.
Proof.
  split; [vm_compute; reflexivity|].
  apply (sign_verify_round_trip (C := toy) toy_curve [1] 42 5
           (mkSignature 2 15)).
  - lia.
  - intros e k [<-|[]] Hk _. vm_compute in Hk. injection Hk as <-.
    vm_compute. split; congruence.
  - vm_compute. reflexivity.
  - simpl. lia.
Defined.

(** * Further properties of the value operations *)

(** [signature_cmp] is the equality test of signatures: it returns true
    exactly when both components are equal (the comment above it in the source
    says the opposite), and the order of its arguments does not matter. *)
Theorem signature_cmp_decides_equality (sig1 sig2 : signature) :
  (signature_cmp sig1 sig2 = true <-> sig1 = sig2) /\
  (signature_cmp sig1 sig2 = false <->
     sig1.(r) <> sig2.(r) \/ sig1.(s) <> sig2.(s)) /\
  signature_cmp sig1 sig2 = signature_cmp sig2 sig1.
Proof.
  split; [apply signature_cmp_eq|]. split.
  - unfold signature_cmp. rewrite !mpz_cmp_eqb, andb_false_iff, !Z.eqb_neq.
    reflexivity.
  - unfold signature_cmp. rewrite !mpz_cmp_eqb.
    rewrite (Z.eqb_sym sig1.(r)), (Z.eqb_sym sig1.(s)). reflexivity.
Qed.

(** Copying gives a signature that compares equal to its source, whatever
    the destination held before, and comparing two copies is comparing their
    sources. *)
Theorem signature_copy_cmp_round_trip (R R' sig sig' : signature) :
  signature_cmp (signature_copy R sig) sig = true /\
  signature_cmp (signature_copy R sig) (signature_copy R' sig')
  = signature_cmp sig sig'.
Proof.
  split.
  - apply signature_cmp_eq. destruct sig. reflexivity.
  - destruct sig, sig'. reflexivity.
Qed.

(** Two signatures set through [signature_set_ui] compare equal exactly when
    they were set from the same two numbers, whatever they held before. *)
Theorem signature_set_ui_cmp (R R' : signature) (r0 s0 r1 s1 : N) :
  signature_cmp (signature_set_ui R r0 s0) (signature_set_ui R' r1 s1) = true
  <-> r0 = r1 /\ s0 = s1.
Proof.
  rewrite signature_cmp_eq. unfold signature_set_ui. split.
  - intros H. injection H as Hr Hs. split; lia.
  - intros [-> ->]. reflexivity.
Qed.

Section MoreCoreFacts.
Context {C : Collaborators}.

(** * Further properties of verification, for any collaborators *)

(** The range check of [signature_verify] rejects exactly the signatures with
    [n <= r <= 0] and [n <= s <= 0], which needs [n <= 0]; such a signature
    is answered false without any call to the collaborators. *)
Theorem range_check_rejects_iff (message : Z) (sig : signature)
    (public_key : point) (curve : domain_parameters) :
  (range_rejects sig curve = true <->
   curve.(n) <= sig.(r) <= 0 /\ curve.(n) <= sig.(s) <= 0) /\
  (range_rejects sig curve = true ->
   signature_verify message sig public_key curve = Verified false).
Proof.
  split.
  - unfold range_rejects. rewrite !mpz_cmp_ltb, !mpz_cmp_leb.
    rewrite !andb_true_iff, !Z.ltb_lt, !Z.leb_le. lia.
  - intros H. unfold signature_verify. rewrite H. reflexivity.
Qed.

(** [signature_verify] reads the message only through its residue modulo
    [n], and has no limit on its size: two messages congruent modulo [n] get
    the same answer for every signature and public key. *)
Theorem verify_message_modulo (message message' : Z) (sig : signature)
    (public_key : point) (curve : domain_parameters) :
  0 < curve.(n) ->
  message mod curve.(n) = message' mod curve.(n) ->
  signature_verify message sig public_key curve =
  signature_verify message' sig public_key curve.
Proof.
  intros Hn Hm. rewrite !signature_verify_pos by lia.
  rewrite Hm. reflexivity.
Qed.

(** * Further properties of signing, for any collaborators *)

Lemma nonce_s_modulo t1 r0 message message' d d' curve :
  0 < curve.(n) ->
  message mod curve.(n) = message' mod curve.(n) ->
  d mod curve.(n) = d' mod curve.(n) ->
  nonce_s t1 r0 message d curve = nonce_s t1 r0 message' d' curve.
Proof.
  intros Hn Hm Hd. rewrite !nonce_s_pos by exact Hn.
  f_equal. f_equal. f_equal.
  rewrite (Z.add_mod message), (Z.add_mod message') by lia.
  rewrite (Z.mul_mod d), (Z.mul_mod d') by lia.
  rewrite Hm, Hd. reflexivity.
Qed.

Lemma sign_attempt_modulo Q_state e message message' d d' curve :
  0 < curve.(n) ->
  message mod curve.(n) = message' mod curve.(n) ->
  d mod curve.(n) = d' mod curve.(n) ->
  sign_attempt Q_state e message d curve
  = sign_attempt Q_state e message' d' curve.
Proof.
  intros Hn Hm Hd. unfold sign_attempt.
  destruct (draw_nonce e curve) as [k|]; [|reflexivity].
  destruct Q_state; [|reflexivity].
  destruct (nonce_r k curve) as [r0|]; [|reflexivity].
  destruct (mpz_sgn r0 =? 0); [reflexivity|].
  destruct (number_theory_inverse k curve.(n)) as [t1|]; [|reflexivity].
  rewrite (nonce_s_modulo t1 r0 message message' d d' curve Hn Hm Hd).
  reflexivity.
Qed.

(** [signature_sign] reads the message and the private key only through
    their residues modulo [n]: for two messages that both pass the assertion
    and are congruent, and two congruent private keys, the calls end the same
    on the same draws. *)
Theorem sign_message_key_modulo (entropy : list Z) (message message' d d' : Z)
    (curve : domain_parameters) :
  0 < curve.(n) ->
  mpz_sizeinbase2 message <= mpz_sizeinbase2 curve.(n) ->
  mpz_sizeinbase2 message' <= mpz_sizeinbase2 curve.(n) ->
  message mod curve.(n) = message' mod curve.(n) ->
  d mod curve.(n) = d' mod curve.(n) ->
  signature_sign entropy message d curve =
  signature_sign entropy message' d' curve.
Proof.
  intros Hn Hs Hs' Hm Hd. rewrite !signature_sign_passed by assumption.
  generalize Initialised as Q_state.
  induction entropy as [|e rest IH]; intros Q_state; simpl; [reflexivity|].
  rewrite (sign_attempt_modulo Q_state e message message' d d' curve Hn Hm Hd).
  destruct (sign_attempt Q_state e message' d' curve); try reflexivity.
  apply IH.
Qed.

(** The [s] of a returned signature is a residue modulo [n]: it lies in
    [0, n - 1], zero included. *)
Theorem sign_s_range (entropy : list Z) (message private_key : Z)
    (curve : domain_parameters) (sig : signature) :
  0 < curve.(n) ->
  signature_sign entropy message private_key curve = Signed sig ->
  0 <= sig.(s) <= curve.(n) - 1.
Proof.
  intros Hn H.
  apply signature_sign_signed in H. destruct H as (_ & e & rest & _ & He).
  apply sign_attempt_done in He.
  destruct He as (_ & k & r0 & t1 & s0 & _ & _ & _ & _ & Hs & ->).
  rewrite nonce_s_pos in Hs by exact Hn. injection Hs as <-. simpl.
  pose proof (Z.mod_pos_bound
    (((message + private_key * r0) mod curve.(n)) * t1) curve.(n) Hn).
  lia.
Qed.

(** The [r] of a returned signature is a residue modulo [n] that is not
    zero: it lies in [1, n - 1]. *)
Theorem sign_r_range (entropy : list Z) (message private_key : Z)
    (curve : domain_parameters) (sig : signature) :
  0 < curve.(n) ->
  signature_sign entropy message private_key curve = Signed sig ->
  1 <= sig.(r) <= curve.(n) - 1.
Proof.
  intros Hn H.
  apply signature_sign_signed in H. destruct H as (_ & e & rest & _ & He).
  apply sign_attempt_done in He.
  destruct He as (_ & k & r0 & t1 & s0 & _ & Hr & Hr0 & _ & _ & ->).
  rewrite nonce_r_pos in Hr by exact Hn. injection Hr as Hr. simpl.
  pose proof (Z.mod_pos_bound
    (point_multiplication k curve.(G) curve).(x) curve.(n) Hn).
  lia.
Qed.

(** The restart does not work: when the first draw gives [r = 0], the call
    jumps back to the label with [Q] released, so it returns no signature
    whatever the later draws are, and its second pass, after drawing its
    nonce, hands the released [Q] to [point_multiplication]. *)
Theorem sign_retry_uses_cleared_point (e k message private_key : Z)
    (curve : domain_parameters) :
  3 <= curve.(n) ->
  mpz_sizeinbase2 message <= mpz_sizeinbase2 curve.(n) ->
  draw_nonce e curve = Some k ->
  nonce_r k curve = Some 0 ->
  (forall rest sig,
     signature_sign (e :: rest) message private_key curve <> Signed sig) /\
  (forall e' rest,
     signature_sign (e :: e' :: rest) message private_key curve
     = SignUseAfterClear).
Proof.
  intros Hn Hle Hk Hr. split.
  - intros rest sig H. apply signature_sign_signed in H.
    destruct H as (_ & e0 & rest0 & E & He). injection E as <- <-.
    rewrite (sign_attempt_retry e message private_key curve k Hk Hr) in He.
    discriminate.
  - intros e' rest.
    apply (sign_retry_cleared e e' rest message private_key curve k
             (e' mod (curve.(n) - 2)) Hle Hk Hr).
    apply draw_nonce_some, Hn.
Qed.

(** The assertion of [signature_sign] looks at the magnitude of the message
    only: the call aborts exactly when [|message| >= 2^bits(n)], so negative
    messages and messages between [n] and [2^bits(n) - 1] pass. *)
Theorem sign_aborts_iff_magnitude (entropy : list Z) (message private_key : Z)
    (curve : domain_parameters) :
  signature_sign entropy message private_key curve = SignAbort <->
  2 ^ mpz_sizeinbase2 curve.(n) <= Z.abs message.
Proof.
  assert (Hbits : 1 <= mpz_sizeinbase2 curve.(n)).
  { unfold mpz_sizeinbase2. destruct (curve.(n) =? 0); [lia|].
    pose proof (Z.log2_nonneg (Z.abs curve.(n))). lia. }
  assert (Hsize : mpz_sizeinbase2 message <= mpz_sizeinbase2 curve.(n) <->
                  Z.abs message < 2 ^ mpz_sizeinbase2 curve.(n)).
  { unfold mpz_sizeinbase2 at 1. destruct (Z.eqb_spec message 0) as [->|Hm].
    - simpl Z.abs. pose proof (Z.pow_pos_nonneg 2 (mpz_sizeinbase2 curve.(n))).
      lia.
    - rewrite (Z.log2_lt_pow2 (Z.abs message)) by lia. lia. }
  unfold signature_sign.
  destruct (Z.leb_spec (mpz_sizeinbase2 message) (mpz_sizeinbase2 curve.(n)))
    as [Hle|Hgt].
  - split; [|lia]. intros H. exfalso. exact (sign_loop_not_abort _ _ _ _ _ H).
  - split; [lia|reflexivity].
Qed.

End MoreCoreFacts.

(** * Two signatures from one nonce *)

Section NonceReuse.
Context {C : Collaborators}.

(** Which draw is accepted does not depend on the message or on the private
    key: two calls on the same draws that both return a signature return the
    signatures of the same pass. *)
Lemma sign_same_draw entropy m1 m2 d1 d2 curve sig1 sig2 :
  0 < curve.(n) ->
  signature_sign entropy m1 d1 curve = Signed sig1 ->
  signature_sign entropy m2 d2 curve = Signed sig2 ->
  exists r0 t1,
    sig1 = mkSignature r0
             ((((m1 + d1 * r0) mod curve.(n)) * t1) mod curve.(n)) /\
    sig2 = mkSignature r0
             ((((m2 + d2 * r0) mod curve.(n)) * t1) mod curve.(n)).
Proof.
  intros Hn H1 H2.
  apply signature_sign_signed in H1, H2.
  destruct H1 as (_ & e & rest & -> & He1).
  destruct H2 as (_ & e' & rest' & E & He2). injection E as <- <-.
  apply sign_attempt_done in He1, He2.
  destruct He1 as (_ & k & r0 & t1 & s1 & Hk & Hr & _ & Ht & Hs1 & ->).
  destruct He2 as (_ & k' & r0' & t1' & s2 & Hk' & Hr' & _ & Ht' & Hs2 & ->).
  rewrite Hk in Hk'. injection Hk' as <-.
  rewrite Hr in Hr'. injection Hr' as <-.
  rewrite Ht in Ht'. injection Ht' as <-.
  rewrite nonce_s_pos in Hs1, Hs2 by exact Hn.
  injection Hs1 as <-. injection Hs2 as <-.
  exists r0, t1. split; reflexivity.
Qed.

(** What the two [s] of one nonce satisfy, whatever the inverse of the nonce
    is. *)
Lemma nonce_s_relation t1 r0 m1 m2 d (q : Z) :
  q <> 0 ->
  let s1 := (((m1 + d * r0) mod q) * t1) mod q in
  let s2 := (((m2 + d * r0) mod q) * t1) mod q in
  (d * r0 * (s2 - s1)) mod q = (s1 * m2 - s2 * m1) mod q.
Proof.
  intros Hq s1 s2.
  assert (E1 : s1 = (m1 + d * r0) * t1 - q * (((m1 + d * r0) * t1) / q)).
  { unfold s1. rewrite Z.mul_mod_idemp_l by exact Hq.
    rewrite Z.mod_eq by exact Hq. reflexivity. }
  assert (E2 : s2 = (m2 + d * r0) * t1 - q * (((m2 + d * r0) * t1) / q)).
  { unfold s2. rewrite Z.mul_mod_idemp_l by exact Hq.
    rewrite Z.mod_eq by exact Hq. reflexivity. }
  apply Z.cong_iff_ex.
  exists ((((m1 + d * r0) * t1) / q) * (m2 + d * r0)
          - (((m2 + d * r0) * t1) / q) * (m1 + d * r0)).
  rewrite E1, E2. ring.
Qed.

(** Two signatures made with the same private key from the same draws share
    their [r], and give the private key away: [d r (s2 - s1)] is congruent to
    [s1 m2 - s2 m1] modulo [n], so whoever inverts [r (s2 - s1)] modulo [n]
    computes the private key modulo [n] from the two messages and the two
    signatures alone. *)
Theorem nonce_reuse_reveals_key (entropy : list Z) (m1 m2 d : Z)
    (curve : domain_parameters) (sig1 sig2 : signature) :
  0 < curve.(n) ->
  signature_sign entropy m1 d curve = Signed sig1 ->
  signature_sign entropy m2 d curve = Signed sig2 ->
  sig1.(r) = sig2.(r) /\
  (d * sig1.(r) * (sig2.(s) - sig1.(s))) mod curve.(n)
  = (sig1.(s) * m2 - sig2.(s) * m1) mod curve.(n) /\
  forall u,
    (sig1.(r) * (sig2.(s) - sig1.(s)) * u) mod curve.(n) = 1 ->
    d mod curve.(n)
    = ((sig1.(s) * m2 - sig2.(s) * m1) * u) mod curve.(n).
Proof.
  intros Hn H1 H2.
  destruct (sign_same_draw _ _ _ _ _ _ _ _ Hn H1 H2) as (r0 & t1 & -> & ->).
  simpl.
  assert (Hq : curve.(n) <> 0) by lia.
  pose proof (nonce_s_relation t1 r0 m1 m2 d curve.(n) Hq) as Hrel.
  cbv zeta in Hrel.
  set (s1 := (((m1 + d * r0) mod curve.(n)) * t1) mod curve.(n)) in *.
  set (s2 := (((m2 + d * r0) mod curve.(n)) * t1) mod curve.(n)) in *.
  split; [reflexivity|]. split; [exact Hrel|].
  intros u Hu.
  transitivity ((d * (r0 * (s2 - s1) * u)) mod curve.(n)).
  - rewrite <- Z.mul_mod_idemp_r, Hu, Z.mul_1_r by exact Hq. reflexivity.
  - replace (d * (r0 * (s2 - s1) * u)) with (d * r0 * (s2 - s1) * u) by ring.
    rewrite <- Z.mul_mod_idemp_l, Hrel, Z.mul_mod_idemp_l by exact Hq.
    reflexivity.
Qed.

End NonceReuse.

(** * Further properties on a valid domain *)

Lemma inverse_unique_modulo (q v w w' : Z) :
  q <> 0 -> (v * w) mod q = 1 -> (v * w') mod q = 1 -> w mod q = w' mod q.
Proof.
  intros Hq Hw Hw'.
  rewrite <- (Z.mul_1_r w), <- Hw', Z.mul_mod_idemp_r by exact Hq.
  replace (w * (v * w')) with (v * w * w') by ring.
  rewrite <- Z.mul_mod_idemp_l, Hw, Z.mul_1_l by exact Hq. reflexivity.
Qed.

Lemma inverse_coprime (q v w : Z) :
  q <> 0 -> (v * w) mod q = 1 -> Z.gcd v q = 1.
Proof.
  intros Hq Hw. apply Z.bezout_1_gcd.
  exists w, (- ((v * w) / q)).
  pose proof (Z.div_mod (v * w) q Hq) as E. rewrite Hw in E. lia.
Qed.

Section ValidDomainFacts.
Context {C : Collaborators} (curve : domain_parameters).
Context {V : ValidDomain curve}.

(** Congruent values have their inverses defined together, and the inverses
    are congruent. *)
Lemma inverse_congruent v v' :
  v mod curve.(n) = v' mod curve.(n) ->
  match number_theory_inverse v curve.(n),
        number_theory_inverse v' curve.(n) with
  | Some w, Some w' => w mod curve.(n) = w' mod curve.(n)
  | None, None => True
  | _, _ => False
  end.
Proof.
  intros Hv. pose proof order_large as Hq.
  assert (Hn : curve.(n) <> 0) by lia.
  assert (Hdef : forall u u' w, u mod curve.(n) = u' mod curve.(n) ->
            number_theory_inverse u curve.(n) = Some w ->
            exists w', number_theory_inverse u' curve.(n) = Some w').
  { intros u u' w Hu Hw. apply inverse_defined.
    rewrite <- Z.gcd_mod_l, <- Hu, Z.gcd_mod_l.
    apply (inverse_coprime curve.(n) u w Hn), inverse_sound, Hw. }
  destruct (number_theory_inverse v curve.(n)) as [w|] eqn:Hw;
    destruct (number_theory_inverse v' curve.(n)) as [w'|] eqn:Hw'.
  - apply inverse_sound in Hw, Hw'.
    apply (inverse_unique_modulo curve.(n) v w w' Hn Hw).
    rewrite <- Z.mul_mod_idemp_l, Hv, Z.mul_mod_idemp_l by exact Hn.
    exact Hw'.
  - destruct (Hdef v v' w Hv Hw) as [w' E]. congruence.
  - destruct (Hdef v' v w' (eq_sym Hv) Hw') as [w E]. congruence.
  - exact I.
Qed.

(** [signature_verify] reads [s] only through its residue modulo [n]: a
    signature and the one with [s + c n] for [s] get the same answer, for
    every message and public key, although [s + c n] is outside [1, n - 1]. *)
Theorem verify_s_modulo (message : Z) (sig sig' : signature)
    (public_key : point) :
  sig.(r) = sig'.(r) ->
  sig.(s) mod curve.(n) = sig'.(s) mod curve.(n) ->
  signature_verify message sig public_key curve =
  signature_verify message sig' public_key curve.
Proof.
  intros Hr Hs. pose proof order_large as Hq.
  assert (Hn : curve.(n) <> 0) by lia.
  rewrite !signature_verify_pos by lia.
  pose proof (inverse_congruent sig.(s) sig'.(s) Hs) as Hinv.
  destruct (number_theory_inverse sig.(s) curve.(n)) as [w|];
    destruct (number_theory_inverse sig'.(s) curve.(n)) as [w'|];
    try contradiction; [|reflexivity].
  cbv zeta. rewrite <- Hr.
  rewrite (Z.mul_mod _ w), (Z.mul_mod _ w'), Hinv by exact Hn.
  rewrite (Z.mul_mod sig.(r) w), (Z.mul_mod sig.(r) w'), Hinv by exact Hn.
  reflexivity.
Qed.

(** A signature whose [s] is a multiple of [n], zero first, is never
    accepted: the check of the range lets it through and the inverse that
    [signature_verify] asks for does not exist. *)
Theorem verify_multiple_s_undefined (message : Z) (sig : signature)
    (public_key : point) :
  sig.(s) mod curve.(n) = 0 ->
  signature_verify message sig public_key curve = VerifyUndefined.
Proof.
  intros Hs. pose proof order_large as Hq.
  rewrite signature_verify_pos by lia.
  destruct (number_theory_inverse sig.(s) curve.(n)) as [w|] eqn:Hw;
    [|reflexivity].
  exfalso. exact (inverse_nonzero curve sig.(s) w Hw Hs).
Qed.

(** When the draws that are not rejected lead to a point whose x-coordinate
    is not below [n], the signature that [signature_sign] returns is refused
    by [signature_verify] under the public key of the signer: [r] is the
    coordinate reduced modulo [n], and it is compared with the coordinate
    itself. *)
Theorem sign_verify_fails_above_order (entropy : list Z) (message d : Z)
    (sig : signature) :
  0 <= d ->
  (forall e k, In e entropy ->
     draw_nonce e curve = Some k ->
     nonce_r k curve <> Some 0 ->
     curve.(n) <= (point_multiplication k curve.(G) curve).(x)) ->
  signature_sign entropy message d curve = Signed sig ->
  sig.(s) <> 0 ->
  signature_verify message sig (signature_generate_key d curve) curve
  = Verified false.
Proof.
  intros Hd Hx H Hs. pose proof (order_pos curve) as Hpos.
  apply signature_sign_signed in H.
  destruct H as (_ & e & rest & -> & He).
  pose proof (sign_attempt_done _ _ _ _ _ _ He)
    as (_ & k & r0 & t1 & s0 & Hk & Hr & Hr0 & _ & _ & Esig).
  rewrite (attempt_verify_result curve e k message d sig Hd Hk He Hs).
  assert (Hxk : curve.(n) <= (point_multiplication k curve.(G) curve).(x)).
  { apply (Hx e k); [left; reflexivity|exact Hk|].
    rewrite Hr. intros E. injection E as E. contradiction. }
  rewrite nonce_r_pos in Hr by exact Hpos. injection Hr as Hr.
  subst sig. simpl.
  pose proof (Z.mod_pos_bound
    (point_multiplication k curve.(G) curve).(x) curve.(n) Hpos) as Hrange.
  f_equal. apply Z.eqb_neq. lia.
Qed.

(** ** The draw of the nonce 0 *)

Section IdentityCoordinate.
(** The collaborator gives the identity the x-coordinate 0 (or any multiple
    of [n]). *)
Hypothesis identity_x :
  (point_multiplication 0 curve.(G) curve).(x) mod curve.(n) = 0.

Lemma sign_attempt_defined Q_state e message d :
  sign_attempt Q_state e message d curve <> Undefined.
Proof.
  pose proof order_large as Hq. pose proof (order_pos curve) as Hpos.
  unfold sign_attempt.
  destruct (draw_nonce e curve) as [k|] eqn:Hk; [|discriminate].
  pose proof (draw_nonce_range e curve k Hq Hk) as Hkr.
  destruct Q_state; [|discriminate].
  rewrite nonce_r_pos by exact Hpos. rewrite mpz_sgn_zero.
  destruct (Z.eqb_spec
    ((point_multiplication k curve.(G) curve).(x) mod curve.(n)) 0)
    as [E|E]; [discriminate|].
  assert (Hk0 : k <> 0).
  { intros E0. apply E. rewrite E0. exact identity_x. }
  destruct (inverse_residue curve k) as [t1 Ht1]; [lia|].
  rewrite Ht1, nonce_s_pos by exact Hpos. discriminate.
Qed.

(** The draw of the nonce 0 is caught: its pass finds [r = 0] and takes the
    [goto], so [signature_sign] never asks for an inverse that does not
    exist. *)
Theorem sign_never_undefined (entropy : list Z) (message d : Z) :
  (forall e, draw_nonce e curve = Some 0 ->
     sign_attempt Initialised e message d curve = Retry) /\
  signature_sign entropy message d curve <> SignUndefined.
Proof.
  split.
  - intros e E. apply (sign_attempt_retry e message d curve 0 E).
    rewrite nonce_r_pos by exact (order_pos curve). rewrite identity_x.
    reflexivity.
  - unfold signature_sign. destruct (_ <=? _); [|discriminate].
    generalize Initialised as Q_state.
    induction entropy as [|e rest IH]; intros Q_state; simpl;
      [discriminate|].
    pose proof (sign_attempt_defined Q_state e message d) as He.
    destruct (sign_attempt Q_state e message d curve);
      try discriminate; [apply IH|contradiction].
Qed.

(** When the message passes the assertion and the first draw gives
    [r <> 0], [signature_sign] returns a signature, with that [r]. *)
Theorem sign_returns_on_accepted_draw (e k : Z) (rest : list Z)
    (message d : Z) :
  mpz_sizeinbase2 message <= mpz_sizeinbase2 curve.(n) ->
  draw_nonce e curve = Some k ->
  nonce_r k curve <> Some 0 ->
  exists sig,
    signature_sign (e :: rest) message d curve = Signed sig /\
    nonce_r k curve = Some sig.(r).
Proof.
  intros Hle Hk Hr.
  pose proof order_large as Hq. pose proof (order_pos curve) as Hpos.
  pose proof (draw_nonce_range e curve k Hq Hk) as Hkr.
  rewrite nonce_r_pos in Hr by exact Hpos.
  assert (Hr0 : (point_multiplication k curve.(G) curve).(x) mod curve.(n)
                <> 0).
  { intros E. apply Hr. rewrite E. reflexivity. }
  assert (Hk0 : k <> 0).
  { intros E0. apply Hr0. rewrite E0. exact identity_x. }
  destruct (inverse_residue curve k) as [t1 Ht1]; [lia|].
  set (r0 := (point_multiplication k curve.(G) curve).(x) mod curve.(n))
    in *.
  exists (mkSignature r0
            ((((message + d * r0) mod curve.(n)) * t1) mod curve.(n))).
  split.
  - apply (sign_returns_any_s e rest message d curve k r0 t1 _ Hle Hk).
    + apply nonce_r_pos, Hpos.
    + exact Hr0.
    + exact Ht1.
    + apply nonce_s_pos, Hpos.
  - simpl. apply nonce_r_pos, Hpos.
Qed.

End IdentityCoordinate.

End ValidDomainFacts.

(** * Two signatures for one message *)

Lemma verify_scalar_normal (q message d r0 w : Z) :
  q <> 0 ->
  (((message mod q) * w) mod q + d * ((r0 * w) mod q)) mod q
  = ((message + d * r0) * w) mod q.
Proof.
  intros Hq.
  rewrite Z.add_mod_idemp_l by exact Hq.
  rewrite Z.add_mod by exact Hq.
  rewrite Z.mul_mod_idemp_l, Z.mul_mod_idemp_r by exact Hq.
  rewrite <- Z.add_mod by exact Hq.
  f_equal. ring.
Qed.

Section Malleability.
Context {C : Collaborators} (curve : domain_parameters).
Context {V : ValidDomain curve}.

(** Opposite points have the same x-coordinate. *)
Hypothesis opposite_x : forall u, 0 < u < curve.(n) ->
  (point_multiplication (curve.(n) - u) curve.(G) curve).(x)
  = (point_multiplication u curve.(G) curve).(x).

(** Under the public key of a private key [d], verification compares [r]
    with the x-coordinate of one multiple of [G]. *)
Lemma verify_on_multiple message sig d w :
  0 <= d ->
  number_theory_inverse sig.(s) curve.(n) = Some w ->
  signature_verify message sig (signature_generate_key d curve) curve
  = let t := ((message + d * sig.(r)) * w) mod curve.(n) in
    Verified
      ((sig.(r) =? (point_multiplication t curve.(G) curve).(x))
       && negb (point_multiplication t curve.(G) curve).(infinity)).
Proof.
  intros Hd Hw. pose proof order_large as Hq.
  pose proof (order_pos curve) as Hpos.
  rewrite signature_verify_pos by lia.
  rewrite Hw. cbv zeta.
  unfold signature_generate_key.
  pose proof (Z.mod_pos_bound ((message mod curve.(n)) * w) curve.(n) Hpos).
  pose proof (Z.mod_pos_bound (sig.(r) * w) curve.(n) Hpos).
  rewrite multiplication_mul, multiplication_add by nia.
  rewrite multiplication_order by nia.
  rewrite verify_scalar_normal by lia. reflexivity.
Qed.

(** Signatures come in pairs: under the public key of a private key,
    [(r, n - s)] gets the answer that [(r, s)] gets, so a second signature of
    a message is made from a first without the private key. *)
Theorem verify_opposite_s (message d : Z) (sig : signature) :
  0 <= d ->
  0 < sig.(s) < curve.(n) ->
  signature_verify message (mkSignature sig.(r) (curve.(n) - sig.(s)))
    (signature_generate_key d curve) curve
  = signature_verify message sig (signature_generate_key d curve) curve.
Proof.
  intros Hd Hs. pose proof order_large as Hq.
  assert (Hn : curve.(n) <> 0) by lia.
  destruct (inverse_residue curve sig.(s) Hs) as [w Hw].
  destruct (inverse_residue curve (curve.(n) - sig.(s))) as [w' Hw']; [lia|].
  rewrite (verify_on_multiple message sig d w Hd Hw).
  rewrite (verify_on_multiple message
             (mkSignature sig.(r) (curve.(n) - sig.(s))) d w' Hd Hw').
  simpl.
  set (T := (message + d * sig.(r)) * w').
  assert (Hww : w mod curve.(n) = (- w') mod curve.(n)).
  { apply (inverse_unique_modulo curve.(n) sig.(s)); [exact Hn| |].
    - apply inverse_sound, Hw.
    - apply inverse_sound in Hw'.
      replace (sig.(s) * - w')
        with ((curve.(n) - sig.(s)) * w' + (- w') * curve.(n)) by ring.
      rewrite Z.mod_add by exact Hn. exact Hw'. }
  assert (Ht : ((message + d * sig.(r)) * w) mod curve.(n)
               = (- T) mod curve.(n)).
  { rewrite <- Z.mul_mod_idemp_r, Hww, Z.mul_mod_idemp_r by exact Hn.
    f_equal. unfold T. ring. }
  rewrite Ht.
  destruct (Z.eq_dec (T mod curve.(n)) 0) as [E|E].
  - rewrite Z.mod_opp_l_z, E by assumption. reflexivity.
  - rewrite Z.mod_opp_l_nz by assumption.
    pose proof (Z.mod_pos_bound T curve.(n) ltac:(lia)) as Hb.
    rewrite opposite_x by lia.
    rewrite !multiplication_finite by lia. reflexivity.
Qed.

End Malleability.

(** * Printing a signature *)

Lemma append_cancel_l (pre u v : string) :
  (pre ++ u)%string = (pre ++ v)%string -> u = v.
Proof.
  induction pre as [|c pre IH]; simpl; intros H; [exact H|].
  injection H as H. exact (IH H).
Qed.

(** Two strings free of [c], each followed by [c], are told apart from what
    follows them. *)
Lemma append_free_split (c : ascii) (u u' rest rest' : string) :
  free c u = true -> free c u' = true ->
  (u ++ String c rest)%string = (u' ++ String c rest')%string ->
  u = u' /\ rest = rest'.
Proof.
  revert u'. induction u as [|a u IH]; intros [|a' u']; simpl.
  - intros _ _ H. injection H as H. auto.
  - intros _ Hf H. injection H as Ha _. subst a'.
    rewrite Ascii.eqb_refl in Hf. discriminate.
  - intros Hf _ H. injection H as Ha _. subst a.
    rewrite Ascii.eqb_refl in Hf. discriminate.
  - intros Hf Hf' H. injection H as Ha H. subst a'.
    apply andb_true_iff in Hf, Hf'.
    destruct (IH u' (proj2 Hf) (proj2 Hf') H) as [-> ->]. auto.
Qed.

Lemma digits_free (c : ascii) (d : Decimal.uint) :
  (c = "," \/ c = ")")%char ->
  free c (DecimalString.NilEmpty.string_of_uint d) = true.
Proof.
  intros [-> | ->]; induction d; simpl; auto.
Qed.

Lemma mpz_out_str10_free (c : ascii) (u : Z) :
  (c = "," \/ c = ")")%char -> free c (mpz_out_str10 u) = true.
Proof.
  intros Hc. unfold mpz_out_str10.
  assert (Hu : forall d,
            free c (DecimalString.NilZero.string_of_uint d) = true).
  { intros d. destruct d; try apply (digits_free c _ Hc).
    destruct Hc as [-> | ->]; reflexivity. }
  destruct (Z.to_int u) as [d|d]; simpl.
  - apply Hu.
  - rewrite Hu. destruct Hc as [-> | ->]; reflexivity.
Qed.

Lemma mpz_out_str10_inj (u v : Z) : mpz_out_str10 u = mpz_out_str10 v -> u = v.
Proof.
  unfold mpz_out_str10. intros H.
  assert (Hisi : forall w,
            DecimalString.NilZero.int_of_string
              (DecimalString.NilZero.string_of_int (Z.to_int w))
            = Some (Z.to_int w)).
  { intros w. apply DecimalString.NilZero.isi; destruct w; simpl;
      try discriminate; intros E; injection E as E;
      exact (DecimalPos.Unsigned.to_uint_nonnil _ E). }
  apply DecimalZ.to_int_inj.
  apply (f_equal DecimalString.NilZero.int_of_string) in H.
  rewrite !Hisi in H. injection H as H. exact H.
Qed.

(** The text that [signature_print] writes determines the signature: two
    signatures that print the same are the same. *)
Theorem signature_print_injective (sig1 sig2 : signature) :
  signature_print sig1 = signature_print sig2 -> sig1 = sig2.
Proof.
  unfold signature_print. intros H.
  apply (append_cancel_l (String "010" "Signature (r,s): ")) in H.
  apply (append_cancel_l (String "010" (String "009" "("))) in H.
  apply append_free_split in H; try (apply mpz_out_str10_free; auto).
  destruct H as [Hr H]. injection H as H.
  apply append_free_split in H; try (apply mpz_out_str10_free; auto).
  destruct H as [Hs _].
  apply mpz_out_str10_inj in Hr, Hs.
  destruct sig1, sig2. simpl in *. subst. reflexivity.
Qed.

Lemma signature_print_example :
  signature_print (mkSignature 2 (-15))
  = String "010" ("Signature (r,s): "
      ++ String "010" (String "009" ("(2,"
      ++ String "010" (String "009" ("-15)" ++ String "010" "")))))%string.
Proof. reflexivity. Qed.

Lemma signature_print_injective_witness :
  signature_print (mkSignature 2 15) = signature_print (mkSignature 2 15) /\
  mkSignature 2 15 = mkSignature 2 15.
Proof.
  split; [reflexivity|].
  apply (signature_print_injective (mkSignature 2 15) (mkSignature 2 15)).
  reflexivity.
Defined.

(** * The further properties, at the small domain *)

Lemma toy_opposite_x (u : Z) :
  0 < u < toy_curve.(n) ->
  (toy_multiplication (toy_curve.(n) - u) toy_curve.(G) toy_curve).(x)
  = (toy_multiplication u toy_curve.(G) toy_curve).(x).
Proof.
  assert (H : forallb (fun i =>
            (toy_multiple (37 - i)).(x) =? (toy_multiple i).(x)) (seq 1 36)
          = true) by (vm_compute; reflexivity).
  simpl n. intros Hu. rewrite !toy_multiplication_multiple.
  rewrite Z2Nat.inj_sub by lia.
  rewrite forallb_forall in H. apply Z.eqb_eq.
  change (Z.to_nat 37) with 37%nat. apply H, in_seq. lia.
Qed.

Lemma verify_message_modulo_witness :
  0 < toy_curve.(n) /\
  42 mod toy_curve.(n) = 79 mod toy_curve.(n) /\
  signature_verify (C := toy) 42 (mkSignature 2 15) (mkPoint 30 17 false)
    toy_curve
  = signature_verify (C := toy) 79 (mkSignature 2 15) (mkPoint 30 17 false)
      toy_curve.
Proof.
  split; [simpl; lia|]. split; [reflexivity|].
  apply (verify_message_modulo (C := toy) 42 79 (mkSignature 2 15)
           (mkPoint 30 17 false) toy_curve).
  - simpl. lia.
  - reflexivity.
Defined.

Lemma sign_message_key_modulo_witness :
  signature_sign (C := toy) [1; 0] 42 5 toy_curve
  = signature_sign (C := toy) [1; 0] 5 42 toy_curve.
Proof.
  apply (sign_message_key_modulo (C := toy) [1; 0] 42 5 5 42 toy_curve).
  - simpl. lia.
  - vm_compute. discriminate.
  - vm_compute. discriminate.
  - reflexivity.
  - reflexivity.
Defined.

Lemma sign_s_range_witness :
  signature_sign (C := toy) [1] 42 5 toy_curve = Signed (mkSignature 2 15)
  /\ 0 <= 15 <= toy_curve.(n) - 1.
Proof.
  split; [vm_compute; reflexivity|].
  apply (sign_s_range (C := toy) [1] 42 5 toy_curve (mkSignature 2 15)).
  - simpl. lia.
  - vm_compute. reflexivity.
Defined.

Lemma sign_r_range_witness :
  signature_sign (C := toy) [10] 42 5 toy_curve = Signed (mkSignature 2 20)
  /\ 1 <= 2 <= toy_curve.(n) - 1.
Proof.
  split; [vm_compute; reflexivity|].
  apply (sign_r_range (C := toy) [10] 42 5 toy_curve (mkSignature 2 20)).
  - simpl. lia.
  - vm_compute. reflexivity.
Defined.

Lemma sign_retry_uses_cleared_point_witness :
  (forall rest sig,
     signature_sign (C := toy) (8 :: rest) 42 5 toy_curve <> Signed sig) /\
  (forall e' rest,
     signature_sign (C := toy) (8 :: e' :: rest) 42 5 toy_curve
     = SignUseAfterClear).
Proof.
  apply (sign_retry_uses_cleared_point (C := toy) 8 8 42 5 toy_curve).
  - simpl. lia.
  - vm_compute. discriminate.
  - reflexivity.
  - reflexivity.
Defined.

Lemma nonce_reuse_reveals_key_witness :
  2 = 2 /\
  (5 * 2 * (20 - 15)) mod toy_curve.(n) = (15 * 10 - 20 * 42) mod toy_curve.(n)
  /\ forall u,
       (2 * (20 - 15) * u) mod toy_curve.(n) = 1 ->
       5 mod toy_curve.(n) = ((15 * 10 - 20 * 42) * u) mod toy_curve.(n).
Proof.
  apply (nonce_reuse_reveals_key (C := toy) [1] 42 10 5 toy_curve
           (mkSignature 2 15) (mkSignature 2 20)).
  - simpl. lia.
  - vm_compute. reflexivity.
  - vm_compute. reflexivity.
Defined.

Lemma verify_s_modulo_witness :
  signature_verify (C := toy) 42 (mkSignature 2 15) (mkPoint 30 17 false)
    toy_curve
  = signature_verify (C := toy) 42 (mkSignature 2 52) (mkPoint 30 17 false)
      toy_curve.
Proof.
  apply (verify_s_modulo (C := toy) toy_curve (V := toy_curve_valid) 42
           (mkSignature 2 15) (mkSignature 2 52) (mkPoint 30 17 false)).
  - reflexivity.
  - reflexivity.
Defined.

Lemma verify_multiple_s_undefined_witness :
  signature_verify (C := toy) 42 (mkSignature 2 74) (mkPoint 30 17 false)
    toy_curve = VerifyUndefined.
Proof.
  apply (verify_multiple_s_undefined (C := toy) toy_curve
           (V := toy_curve_valid) 42 (mkSignature 2 74) (mkPoint 30 17 false)).
  reflexivity.
Defined.

Lemma sign_verify_fails_above_order_witness :
  signature_sign (C := toy) [10] 42 5 toy_curve
  = Signed (mkSignature 2 20) /\
  signature_verify (C := toy) 42 (mkSignature 2 20)
    (signature_generate_key (C := toy) 5 toy_curve) toy_curve
  = Verified false.
Proof.
  split; [vm_compute; reflexivity|].
  apply (sign_verify_fails_above_order (C := toy) toy_curve
           (V := toy_curve_valid) [10] 42 5 (mkSignature 2 20)).
  - lia.
  - intros e k [<-|[]] Hk _. vm_compute in Hk. injection Hk as <-.
    vm_compute. discriminate.
  - vm_compute. reflexivity.
  - simpl. lia.
Defined.

Lemma sign_never_undefined_witness :
  (forall e, draw_nonce e toy_curve = Some 0 ->
     sign_attempt (C := toy) Initialised e 42 5 toy_curve = Retry) /\
  signature_sign (C := toy) [0; 35; 10] 42 5 toy_curve <> SignUndefined.
Proof.
  apply (sign_never_undefined (C := toy) toy_curve (V := toy_curve_valid)).
  reflexivity.
Defined.

Lemma sign_returns_on_accepted_draw_witness :
  exists sig,
    signature_sign (C := toy) [1; 0; 8] 42 5 toy_curve = Signed sig /\
    nonce_r (C := toy) 1 toy_curve = Some sig.(r).
Proof.
  apply (sign_returns_on_accepted_draw (C := toy) toy_curve
           (V := toy_curve_valid)).
  - reflexivity.
  - vm_compute. discriminate.
  - reflexivity.
  - vm_compute. discriminate.
Defined.

Lemma verify_opposite_s_witness :
  signature_verify (C := toy) 42 (mkSignature 2 (37 - 15))
    (signature_generate_key (C := toy) 5 toy_curve) toy_curve
  = signature_verify (C := toy) 42 (mkSignature 2 15)
      (signature_generate_key (C := toy) 5 toy_curve) toy_curve.
Proof.
  apply (verify_opposite_s (C := toy) toy_curve (V := toy_curve_valid)
           toy_opposite_x 42 5 (mkSignature 2 15)).
  - lia.
  - simpl. lia.
Defined.
